(** * Guess word: the word puzzle finder (src/app/wordPuzzleFinder.tsx)

    A shallow embedding of the component's logic: the four input
    sanitizers, [validateInputs], [buildQueryParams], the result filter and
    the try/catch/finally of [fetchWords], and [handleSubmit].

    Strings are JavaScript strings: finite sequences of UTF-16 code units.
    The case mappings [String.prototype.toUpperCase] and [toLowerCase] are
    built-ins that follow the Unicode tables; they are taken as parameters
    of the development, together with the facts about them that a proof
    needs, and an instance on the ASCII range serves for evaluation. What
    differs from one JavaScript engine to the next (the longest string it
    builds, the messages of its RangeErrors) is a parameter too. *)

From Stdlib Require Import List NArith Ascii String Bool Lia.
Import ListNotations.

(** ** JavaScript strings and the built-ins the component calls *)

Module JS.

Definition code_unit := N.
Definition jsstring := list code_unit.

(** What a [throw] carries: an [Error] object with its message, or any other
    value (line 65 tells them apart with [instanceof Error]). *)
Inductive Thrown :=
| ErrorObject (message : jsstring)
| OtherValue.

(** How an evaluation, or a promise, ends. *)
Inductive Completion (A : Type) :=
| Normal (a : A)
| Throw (e : Thrown).
Arguments Normal {A} a.
Arguments Throw {A} e.

(** The Number values this component meets: the non-negative integral
    doubles, +Infinity and NaN. *)
Inductive number :=
| Finite (v : N)
| Infinity
| NaN.

(** What depends on the engine: the greatest length of a string it builds,
    and the message of the RangeError that [String.prototype.repeat] throws
    for a count it refuses. *)
Record Engine := mkEngine {
  string_limit : N;
  repeat_error : number -> jsstring
}.

(** A string literal of the source, as its code units. *)
Definition lit (s : string) : jsstring :=
  map N_of_ascii (list_ascii_of_string s).

(** ToBoolean on a string: only the empty string is falsy. *)
Definition truthy (s : jsstring) : bool :=
  match s with
  | [] => false
  | _ :: _ => true
  end.

Definition unit_eqb (a b : code_unit) : bool := N.eqb a b.

Fixpoint str_eqb (s t : jsstring) : bool :=
  match s, t with
  | [], [] => true
  | a :: s', b :: t' => unit_eqb a b && str_eqb s' t'
  | _, _ => false
  end.

(** [s.startsWith(p)]. *)
Fixpoint startsWith (s p : jsstring) : bool :=
  match p, s with
  | [], _ => true
  | _ :: _, [] => false
  | b :: p', a :: s' => unit_eqb a b && startsWith s' p'
  end.

(** [s.includes(p)]: [p] occurs in [s] as a contiguous substring. *)
Fixpoint includes (s p : jsstring) : bool :=
  startsWith s p ||
  match s with
  | [] => false
  | _ :: s' => includes s' p
  end.

(** [s.split("")]: one single-unit string per code unit. *)
Definition split_units (s : jsstring) : list jsstring :=
  map (fun u => [u]) s.

(** [xs.join(sep)]. *)
Fixpoint join (sep : jsstring) (xs : list jsstring) : jsstring :=
  match xs with
  | [] => []
  | [x] => x
  | x :: rest => x ++ sep ++ join sep rest
  end.

(** [n] copies of [s], one after the other. *)
Fixpoint copies (s : jsstring) (n : nat) : jsstring :=
  match n with
  | O => []
  | S n' => s ++ copies s n'
  end.

(** [s.repeat(count)]. ToIntegerOrInfinity sends NaN to 0; the count
    +Infinity is a RangeError, and so is a result longer than the engine's
    greatest string. (A negative count is a RangeError too; [number] has
    none. Running out of memory below that limit is not modelled.) *)
Definition repeat (eng : Engine) (s : jsstring) (count : number)
  : Completion jsstring :=
  match count with
  | NaN => Normal []
  | Infinity => Throw (ErrorObject (repeat_error eng count))
  | Finite n =>
      if (N.of_nat (List.length s) * n <=? string_limit eng)%N
      then Normal (copies s (N.to_nat n))
      else Throw (ErrorObject (repeat_error eng count))
  end.

Definition is_digit (u : code_unit) : bool := (48 <=? u)%N && (u <=? 57)%N.
Definition is_upper (u : code_unit) : bool := (65 <=? u)%N && (u <=? 90)%N.
Definition is_lower (u : code_unit) : bool := (97 <=? u)%N && (u <=? 122)%N.
Definition is_ascii (u : code_unit) : bool := (u <? 128)%N.

Definition wildcard : code_unit := 63%N.

(** [s.replace(/[^A-Z]/g, "")]. *)
Definition strip_non_upper (s : jsstring) : jsstring := filter is_upper s.

(** [s.replace(/[^A-Z?]/g, "")]. *)
Definition strip_non_pattern (s : jsstring) : jsstring :=
  filter (fun u => is_upper u || unit_eqb u wildcard) s.

(** [s.replace(/\D/g, "")]. *)
Definition strip_non_digit (s : jsstring) : jsstring := filter is_digit s.

(** The value of a string of decimal digits, most significant first. *)
Definition decimal (s : jsstring) : N :=
  fold_left (fun acc u => (10 * acc + (u - 48))%N) s 0%N.

(** The double nearest to the integer [n], ties to the even significand:
    [n] itself below 2^53; above, the 53 leading bits [q] of [n], rounded by
    the bits [r] dropped; +Infinity when the rounding reaches 2^1024. *)
Definition to_double (n : N) : number :=
  if (n <? 2 ^ 53)%N then Finite n
  else
    let e := (N.log2 n - 52)%N in
    let q := N.shiftr n e in
    let r := N.land n (N.ones e) in
    let half := (2 ^ (e - 1))%N in
    let q' := if (half <? r)%N || ((r =? half)%N && N.odd q)
              then (q + 1)%N else q in
    let v := N.shiftl q' e in
    if (v <? 2 ^ 1024)%N then Finite v else Infinity.

(** [Number(s)] on the strings the length field holds: [strip_non_digit]
    leaves decimal digits only, [Number("")] is 0 and a digit string
    converts to the double nearest to its decimal value (leading zeros
    allowed), +Infinity when that value is too large. Past twenty
    significant digits the standard leaves the last place to the engine;
    engines round to nearest, as here. Strings with another character never
    reach [Number] in this component and are not modelled further: they
    read as NaN. *)
Definition Number (s : jsstring) : number :=
  if forallb is_digit s then to_double (decimal s) else NaN.

(** [x === Number(s)] for a length [x]. Neither +Infinity nor NaN equals a
    length. *)
Definition length_is (x : nat) (n : number) : bool :=
  match n with
  | Finite v => N.eqb (N.of_nat x) v
  | Infinity | NaN => false
  end.

(** The case mappings restricted to ASCII, unit by unit. *)
Definition upper_unit (u : code_unit) : code_unit :=
  if is_lower u then (u - 32)%N else u.
Definition lower_unit (u : code_unit) : code_unit :=
  if is_upper u then (u + 32)%N else u.

Definition ascii_toUpperCase (s : jsstring) : jsstring := map upper_unit s.
Definition ascii_toLowerCase (s : jsstring) : jsstring := map lower_unit s.

End JS.

Import JS.

(** ** The component's data *)

(** [interface WordItem]. *)
Record WordItem := mkWordItem {
  word : jsstring;
  defs : option (list jsstring)
}.

(** [URLSearchParams]: name/value pairs in the order they were appended. *)
Definition URLSearchParams := list (jsstring * jsstring).

Definition append (name value : jsstring) (p : URLSearchParams) : URLSearchParams :=
  p ++ [(name, value)].

(** [params.get(name)]: the first value appended under [name]. *)
Fixpoint get (name : jsstring) (p : URLSearchParams) : option jsstring :=
  match p with
  | [] => None
  | (k, v) :: rest => if str_eqb k name then Some v else get name rest
  end.

(** The seven [useState] cells of the component. *)
Record State := mkState {
  letters : jsstring;
  length : jsstring;
  pattern : jsstring;
  excludedLetters : jsstring;
  results : list jsstring;
  error : jsstring;
  isLoading : bool
}.

Definition initial : State :=
  mkState [] [] [] [] [] [] false.

Definition setLetters (v : jsstring) (st : State) : State :=
  mkState v (length st) (pattern st) (excludedLetters st)
          (results st) (error st) (isLoading st).
Definition setLength (v : jsstring) (st : State) : State :=
  mkState (letters st) v (pattern st) (excludedLetters st)
          (results st) (error st) (isLoading st).
Definition setPattern (v : jsstring) (st : State) : State :=
  mkState (letters st) (length st) v (excludedLetters st)
          (results st) (error st) (isLoading st).
Definition setExcludedLetters (v : jsstring) (st : State) : State :=
  mkState (letters st) (length st) (pattern st) v
          (results st) (error st) (isLoading st).
Definition setResults (v : list jsstring) (st : State) : State :=
  mkState (letters st) (length st) (pattern st) (excludedLetters st)
          v (error st) (isLoading st).
Definition setError (v : jsstring) (st : State) : State :=
  mkState (letters st) (length st) (pattern st) (excludedLetters st)
          (results st) v (isLoading st).
Definition setIsLoading (v : bool) (st : State) : State :=
  mkState (letters st) (length st) (pattern st) (excludedLetters st)
          (results st) (error st) v.

(** The messages of the source. *)
Definition msg_empty_criteria : jsstring := lit "Enter at least one search criteria".
Definition msg_length_mismatch : jsstring := lit "Pattern length must match word length".
Definition msg_rate_limit : jsstring := lit "API rate limit exceeded".
Definition msg_fetch_failed : jsstring := lit "Failed to fetch words".
Definition msg_no_matches : jsstring := lit "No matches found".

(** ** validateInputs (lines 71-77) *)

Definition validateInputs (st : State) : jsstring :=
  if negb (truthy (letters st)) && negb (truthy (pattern st))
     && negb (truthy (length st))
  then msg_empty_criteria
  else if truthy (pattern st) && truthy (length st)
          && negb (length_is (List.length (pattern st)) (Number (length st)))
  then msg_length_mismatch
  else [].

(** ** Completions, and actions on the component's state *)

Definition Action (A : Type) := State -> Completion A * State.

Definition ret {A} (a : A) : Action A := fun st => (Normal a, st).

Definition bind {A B} (m : Action A) (k : A -> Action B) : Action B :=
  fun st =>
    match m st with
    | (Normal a, st') => k a st'
    | (Throw e, st') => (Throw e, st')
    end.

Definition throw {A} (e : Thrown) : Action A := fun st => (Throw e, st).

(** A state setter, as a statement. *)
Definition act (f : State -> State) : Action unit := fun st => (Normal tt, f st).

(** [await p] for a promise that settles as [p]. *)
Definition await {A} (p : Completion A) : Action A := fun st => (p, st).

(** [try { body } catch (err) { handler } finally { fin }]. *)
Definition try_catch_finally {A} (body : Action A) (handler : Thrown -> Action A)
    (fin : Action unit) : Action A :=
  fun st =>
    let caught :=
      match body st with
      | (Normal a, st') => (Normal a, st')
      | (Throw e, st') => handler e st'
      end in
    match fin (snd caught) with
    | (Normal _, st'') => (fst caught, st'')
    | (Throw e, st'') => (Throw e, st'')
    end.

Notation "x <- m ;; k" := (bind m (fun x => k))
  (at level 61, m at next level, right associativity).
Notation "m ;; k" := (bind m (fun _ => k))
  (at level 61, right associativity).

(** The [Response] of [fetch]: its status and how [response.json()] settles.
    A body that is not JSON makes [json()] reject; a body that is JSON but
    not an array of word items makes [data.filter] or [item.word.toUpperCase]
    throw a [TypeError] inside the same [try]; both are a [Throw] here. *)
Record Response := mkResponse {
  status : N;
  json : Completion (list WordItem)
}.

(** [response.ok]. *)
Definition ok (r : Response) : bool :=
  (200 <=? status r)%N && (status r <=? 299)%N.

Section Finder.

(** The engine that runs the component. *)
Variable eng : Engine.

(** [String.prototype.toUpperCase] and [toLowerCase]. *)
Variable toUpperCase : jsstring -> jsstring.
Variable toLowerCase : jsstring -> jsstring.

(** ** buildQueryParams (lines 22-40) *)

(** Line 25 can throw: [repeat] refuses a count that is too large. The
    other lines cannot. *)
Definition buildQueryParams (st : State) : Completion URLSearchParams :=
  let params : URLSearchParams := [] in
  match (if negb (truthy (pattern st)) && truthy (length st)
         then JS.repeat eng (lit "?") (Number (length st))
         else Normal (pattern st))
  with
  | Throw err => Throw err
  | Normal finalPattern =>
      let params :=
        if truthy finalPattern
        then append (lit "sp") (toLowerCase finalPattern) params
        else params in
      let params :=
        if truthy (excludedLetters st)
        then append (lit "q")
               (join (lit " ")
                  (map (fun l => lit "-" ++ l)
                     (split_units (toLowerCase (excludedLetters st)))))
               params
        else params in
      let params := append (lit "max") (lit "200") params in
      let params := append (lit "md") (lit "d") params in
      Normal params
  end.

(** ** The result filter (lines 50-60) *)

(** The callback of [data.filter]. *)
Definition keeps (c : State) (item : WordItem) : bool :=
  let word := toUpperCase (word item) in
  (negb (truthy (length c))
   || length_is (List.length word) (Number (length c)))
  && (negb (truthy (letters c))
      || forallb (fun l => includes word l) (split_units (letters c)))
  && (negb (truthy (excludedLetters c))
      || negb (existsb (fun l => includes word l)
                 (split_units (excludedLetters c)))).

Definition filterWords (c : State) (data : list WordItem) : list jsstring :=
  map (fun item => toUpperCase (word item)) (filter (keeps c) data).

(** ** fetchWords (lines 42-69)

    [fetchWords] runs in the closure of the render that handled the
    submission: [c] holds the constraint cells as that render saw them.
    The [await] of line 46 is the one suspension point. Up to it the
    function sets the loading flag, builds the parameters and issues the
    request ([fetchWords_begin], below); there only [buildQueryParams] can
    throw, and then the [catch] and [finally] clauses run at once and no
    request is issued. The rest runs when the request settles with
    [reply]. *)

(** Lines 47-63: the [try] block from the settled request on. *)
Definition fetchWords_try (c : State) (reply : Completion Response)
  : Action unit :=
  response <- await reply ;;
  if (status response =? 429)%N then throw (ErrorObject msg_rate_limit)
  else if negb (ok response) then throw (ErrorObject msg_fetch_failed)
  else
    data <- await (json response) ;;
    let filteredWords := filterWords c data in
    act (setResults filteredWords) ;;
    act (setError (match filteredWords with
                   | _ :: _ => []
                   | [] => msg_no_matches
                   end)).

(** Line 65: the [catch] clause. *)
Definition fetchWords_catch (err : Thrown) : Action unit :=
  act (setError (match err with
                 | ErrorObject message => message
                 | OtherValue => msg_fetch_failed
                 end)).

Definition fetchWords_resume (c : State) (reply : Completion Response)
  : Action unit :=
  try_catch_finally (fetchWords_try c reply) fetchWords_catch
                    (act (setIsLoading false)).

(** ** The component and its environment

    [ui] is the current state, [sent] the parameters of the requests issued
    so far, oldest first, and [inflight] the closures of the calls of
    [fetchWords] that wait for their request to settle. *)
Record World := mkWorld {
  ui : State;
  sent : list URLSearchParams;
  inflight : list State
}.

Definition boot : World := mkWorld initial [] [].

(** Lines 44-46: up to the [await]; or, when [buildQueryParams] throws,
    lines 44-45 and then lines 64-68. *)
Definition fetchWords_begin (c : State) (w : World) : World :=
  let loading := setIsLoading true (ui w) in
  match buildQueryParams c with
  | Normal queryParams =>
      mkWorld loading (sent w ++ [queryParams]) (inflight w ++ [c])
  | Throw err =>
      mkWorld (snd (try_catch_finally (throw err) fetchWords_catch
                      (act (setIsLoading false)) loading))
              (sent w) (inflight w)
  end.

(** ** handleSubmit (lines 79-85) *)
Definition handleSubmit (w : World) : World :=
  let c := ui w in
  let validationError := validateInputs c in
  if truthy validationError
  then mkWorld (setError validationError (ui w)) (sent w) (inflight w)
  else fetchWords_begin c (mkWorld (setError [] (ui w)) (sent w) (inflight w)).

(** ** Events *)
Inductive Event :=
| LettersInput (value : jsstring)           (* lines 108-112 *)
| ExcludedInput (value : jsstring)          (* lines 125-129 *)
| LengthInput (value : jsstring)            (* line 146 *)
| PatternInput (value : jsstring)           (* lines 160-164 *)
| Submit                                    (* line 94 *)
| Settle (i : nat) (reply : Completion Response).

Definition on_ui (f : State -> State) (w : World) : World :=
  mkWorld (f (ui w)) (sent w) (inflight w).

Fixpoint drop_nth {A} (i : nat) (l : list A) : list A :=
  match i, l with
  | _, [] => []
  | O, _ :: l' => l'
  | S i', x :: l' => x :: drop_nth i' l'
  end.

(** One event. The requests in flight settle in any order; the disabled
    submit button (line 179) is not used as a guard, so the steps below
    include every step of the component. *)
Definition dispatch (w : World) (e : Event) : World :=
  match e with
  | LettersInput value =>
      on_ui (setLetters (strip_non_upper (toUpperCase value))) w
  | ExcludedInput value =>
      on_ui (setExcludedLetters (strip_non_upper (toUpperCase value))) w
  | LengthInput value =>
      on_ui (setLength (strip_non_digit value)) w
  | PatternInput value =>
      on_ui (setPattern (strip_non_pattern (toUpperCase value))) w
  | Submit => handleSubmit w
  | Settle i reply =>
      match nth_error (inflight w) i with
      | Some c =>
          mkWorld (snd (fetchWords_resume c reply (ui w)))
                  (sent w) (drop_nth i (inflight w))
      | None => w
      end
  end.

Definition run (events : list Event) : World := fold_left dispatch events boot.

End Finder.

(** ** The properties, stated apart from the code *)

(** Code units by their ranges. *)
Definition upper_letter (u : code_unit) : Prop := (65 <= u <= 90)%N.
Definition decimal_digit (u : code_unit) : Prop := (48 <= u <= 57)%N.

(** What the input handlers leave in the four constraint cells. *)
Record Sanitized (st : State) : Prop := mkSanitized {
  letters_upper : Forall upper_letter (letters st);
  excluded_upper : Forall upper_letter (excludedLetters st);
  pattern_upper : Forall (fun u => upper_letter u \/ u = wildcard) (pattern st);
  length_digits : Forall decimal_digit (length st)
}.

(** Two states with the same four constraint cells. *)
Definition same_constraints (st st' : State) : Prop :=
  letters st' = letters st /\ excludedLetters st' = excludedLetters st
  /\ pattern st' = pattern st /\ length st' = length st.

(** The invariant of the component: the current constraint cells are
    sanitized, and so are those of every closure that waits for a request. *)
Definition Invariant (w : World) : Prop :=
  Sanitized (ui w) /\ Forall Sanitized (inflight w).

(** The three conditions on an uppercased candidate [w]: the exact length,
    the required letters, the excluded letters. An empty cell is an absent
    constraint. *)
Definition Satisfies (c : State) (w : jsstring) : Prop :=
  (length c = [] \/ Number (length c) = Finite (N.of_nat (List.length w)))
  /\ (letters c = [] \/ forall l, In l (letters c) -> In l w)
  /\ (excludedLetters c = [] \/ forall l, In l (excludedLetters c) -> ~ In l w).

(** [Selection up c data out]: [out] lists, in the order of [data] and with
    repetitions kept, the uppercased words of the items of [data] that
    satisfy the three conditions. *)
Inductive Selection (up : jsstring -> jsstring) (c : State)
  : list WordItem -> list jsstring -> Prop :=
| Selection_nil : Selection up c [] []
| Selection_keep item data out :
    Satisfies c (up (word item)) ->
    Selection up c data out ->
    Selection up c (item :: data) (up (word item) :: out)
| Selection_skip item data out :
    ~ Satisfies c (up (word item)) ->
    Selection up c data out ->
    Selection up c (item :: data) out.

(** A word against a positional pattern: the same length, and at every
    position the wildcard or the word's own code unit. *)
Fixpoint matches_pattern (p w : jsstring) : bool :=
  match p, w with
  | [], [] => true
  | a :: p', b :: w' =>
      (unit_eqb a wildcard || unit_eqb a b) && matches_pattern p' w'
  | _, _ => false
  end.

(** The case mappings on ASCII strings. *)
Definition ascii_only (s : jsstring) : Prop := Forall (fun u => (u < 128)%N) s.

Definition agrees_on_ascii (f g : jsstring -> jsstring) : Prop :=
  forall s, ascii_only s -> f s = g s.

(** A candidate as the service returns it, without definitions. *)
Definition candidate (s : string) : WordItem := mkWordItem (lit s) None.

(** The search of the worked example: length 5, pattern ??RA?, excluded
    letters CYT, no required letter. *)
Definition zebra_search : State :=
  mkState [] (lit "5") (lit "??RA?") (lit "CYT") [] [] false.

(** A search for the required letters AUL alone. *)
Definition aul_search : State :=
  mkState (lit "AUL") [] [] [] [] [] false.

(** Only excluded letters are filled in. *)
Definition excluded_only : State :=
  mkState [] [] [] (lit "CYT") [] [] false.

(** A well-formed answer of the service with status 200. *)
Definition ok_reply (data : list WordItem) : Completion Response :=
  Normal (mkResponse 200 (Normal data)).

(** ** The submit button and the events of the page *)

(** Line 179: the submit button is disabled while the loading flag is set,
    and a form whose submit button is disabled is not submitted. The page
    delivers a submission only when the flag is clear; the other events are
    delivered as they come. *)
Definition deliver (eng : Engine) (up low : jsstring -> jsstring)
    (w : World) (e : Event) : World :=
  match e with
  | Submit => if isLoading (ui w) then w else dispatch eng up low w e
  | _ => dispatch eng up low w e
  end.

Definition run_page (eng : Engine) (up low : jsstring -> jsstring)
    (events : list Event) : World :=
  fold_left (deliver eng up low) events boot.

(** The four [onChange] events. *)
Definition is_input (e : Event) : bool :=
  match e with
  | LettersInput _ | ExcludedInput _ | LengthInput _ | PatternInput _ => true
  | Submit | Settle _ _ => false
  end.

(** An ASCII letter of either case. *)
Definition is_letter (u : code_unit) : bool := is_upper u || is_lower u.

(** A closure that passed [validateInputs] on sanitized cells. *)
Definition Validated (c : State) : Prop :=
  Sanitized c /\ validateInputs c = [].

(** The ways a call of [fetchWords] ends, by what it leaves in the
    state [st] it resumes on. *)
Inductive Ending (up : jsstring -> jsstring) (c st : State)
  : Completion Response -> State -> Prop :=
| Ending_rejected e :
    Ending up c st (Throw e)
      (setIsLoading false
         (setError (match e with
                    | ErrorObject m => m
                    | OtherValue => msg_fetch_failed
                    end) st))
| Ending_rate_limited r :
    status r = 429%N ->
    Ending up c st (Normal r)
      (setIsLoading false (setError msg_rate_limit st))
| Ending_bad_status r :
    status r <> 429%N -> ~ (200 <= status r <= 299)%N ->
    Ending up c st (Normal r)
      (setIsLoading false (setError msg_fetch_failed st))
| Ending_bad_body r e :
    (200 <= status r <= 299)%N -> json r = Throw e ->
    Ending up c st (Normal r)
      (setIsLoading false
         (setError (match e with
                    | ErrorObject m => m
                    | OtherValue => msg_fetch_failed
                    end) st))
| Ending_matches r data :
    (200 <= status r <= 299)%N -> json r = Normal data ->
    filterWords up c data <> [] ->
    Ending up c st (Normal r)
      (setIsLoading false
         (setError [] (setResults (filterWords up c data) st)))
| Ending_no_matches r data :
    (200 <= status r <= 299)%N -> json r = Normal data ->
    filterWords up c data = [] ->
    Ending up c st (Normal r)
      (setIsLoading false (setError msg_no_matches (setResults [] st))).

(** At most one call of [fetchWords] waits, and the loading flag tells
    whether one does. *)
Definition SingleFlight (w : World) : Prop :=
  (isLoading (ui w) = true /\ exists c, inflight w = [c])
  \/ (isLoading (ui w) = false /\ inflight w = []).

(** Every call of [fetchWords] in flight runs on constraints that passed
    the validator, and the request built from them is among those sent. *)
Definition Pending (eng : Engine) (low : jsstring -> jsstring) (w : World)
  : Prop :=
  Forall (fun c => Validated c
                   /\ exists q, buildQueryParams eng low c = Normal q
                                /\ In q (sent w))
         (inflight w).

(** An engine with the limits and the messages of V8. *)
Definition v8 : Engine :=
  mkEngine (2 ^ 29 - 24)
           (fun count =>
              match count with
              | Infinity => lit "Invalid count value: Infinity"
              | _ => lit "Invalid string length"
              end).

(** A search by a length alone that no engine can serve. *)
Definition oversized_search : State :=
  mkState [] (lit "600000000") [] [] [] [] false.

(** ** Lemmas on the built-ins *)

Lemma truthy_false (s : jsstring) : truthy s = false <-> s = [].
Proof. destruct s; simpl; split; congruence. Qed.

Lemma truthy_true (s : jsstring) : truthy s = true <-> s <> [].
Proof. destruct s; simpl; split; congruence. Qed.

Lemma startsWith_unit (s : jsstring) (l : code_unit) :
  startsWith s [l] = true <-> exists t, s = l :: t.
Proof.
  destruct s as [|a t]; simpl.
  - split; [discriminate | intros [t H]; discriminate].
  - destruct t; rewrite andb_true_r; unfold unit_eqb; rewrite N.eqb_eq;
      (split; [intros ->; eauto | intros [t' H]; congruence]).
Qed.

Lemma includes_unit (s : jsstring) (l : code_unit) :
  includes s [l] = true <-> In l s.
Proof.
  induction s as [|a t IH].
  - simpl. split; [discriminate | tauto].
  - change (includes (a :: t) [l])
      with (startsWith (a :: t) [l] || includes t [l]).
    rewrite orb_true_iff, startsWith_unit, IH. simpl. split.
    + intros [[t' H] | H]; [left; congruence | right; exact H].
    + intros [H | H]; [left; exists t; congruence | right; exact H].
Qed.

Lemma every_includes (w s : jsstring) :
  forallb (fun l => includes w l) (split_units s) = true
  <-> forall l, In l s -> In l w.
Proof.
  unfold split_units. rewrite forallb_forall. split.
  - intros H l Hl. apply includes_unit, H, in_map_iff. eauto.
  - intros H x Hx. apply in_map_iff in Hx as [l [<- Hl]].
    apply includes_unit, H, Hl.
Qed.

Lemma some_includes (w s : jsstring) :
  existsb (fun l => includes w l) (split_units s) = false
  <-> forall l, In l s -> ~ In l w.
Proof.
  unfold split_units. rewrite <- not_true_iff_false, existsb_exists. split.
  - intros H l Hl Hw. apply H. exists [l]. split.
    + apply in_map_iff. eauto.
    + apply includes_unit, Hw.
  - intros H [x [Hx Hinc]]. apply in_map_iff in Hx as [l [<- Hl]].
    apply (H l Hl), includes_unit, Hinc.
Qed.

Lemma length_is_Some (x : nat) (n : number) :
  length_is x n = true <-> n = Finite (N.of_nat x).
Proof.
  destruct n as [v| |]; simpl.
  - rewrite N.eqb_eq. split; congruence.
  - split; discriminate.
  - split; discriminate.
Qed.

(** The callback of the filter decides the three conditions. *)
Lemma keeps_Satisfies up (c : State) (item : WordItem) :
  keeps up c item = true <-> Satisfies c (up (word item)).
Proof.
  unfold keeps, Satisfies.
  rewrite !andb_true_iff, !orb_true_iff, !negb_true_iff, !truthy_false.
  rewrite length_is_Some, every_includes, some_includes. tauto.
Qed.

Lemma keeps_not_Satisfies up (c : State) (item : WordItem) :
  keeps up c item = false <-> ~ Satisfies c (up (word item)).
Proof.
  rewrite <- keeps_Satisfies. destruct (keeps up c item); split; congruence.
Qed.

(** ** The result filter *)

(** C1. For every list of candidates and every value of the constraints, the
    output of the result filter is exactly the list of the uppercased
    candidates that meet the exact length (or none is given), contain every
    required letter (or none is given) and contain no excluded letter (or
    none is given), in the order of the service and with repetitions kept:
    [Selection] holds of the output and of nothing else. *)
Theorem filterWords_exact up (c : State) (data : list WordItem)
    (out : list jsstring) :
  Selection up c data out <-> out = filterWords up c data.
Proof.
  unfold filterWords. split.
  - induction 1 as [|item data out Hs _ IH|item data out Hs _ IH]; simpl.
    + reflexivity.
    + apply keeps_Satisfies in Hs. rewrite Hs. simpl. now f_equal.
    + apply keeps_not_Satisfies in Hs. now rewrite Hs.
  - intros ->. induction data as [|item data IH]; simpl.
    + constructor.
    + destruct (keeps up c item) eqn:Hk; simpl.
      * apply Selection_keep; [now apply keeps_Satisfies | exact IH].
      * apply Selection_skip; [now apply keeps_not_Satisfies | exact IH].
Qed.

Example filterWords_aul :
  filterWords ascii_toUpperCase aul_search
    [candidate "aural"; candidate "plant"; candidate "laugh"]
  = [lit "AURAL"; lit "LAUGH"].
Proof. reflexivity. Qed.

Lemma In_filterWords up (c : State) (data : list WordItem) (w : jsstring) :
  In w (filterWords up c data)
  <-> exists item, In item data /\ w = up (word item) /\ Satisfies c w.
Proof.
  unfold filterWords. rewrite in_map_iff. split.
  - intros [item [<- Hin]]. apply filter_In in Hin as [Hin Hk].
    exists item. split; [assumption | split; [reflexivity|]].
    now apply keeps_Satisfies.
  - intros [item [Hin [-> Hs]]]. exists item. split; [reflexivity|].
    apply filter_In. split; [assumption | now apply keeps_Satisfies].
Qed.

(** Against C2 as stated: the filter on a pattern the candidate does not
    match. With length 5, pattern ??RA? and excluded letters CYT, the
    candidate hello has five letters and none of C, Y, T, so it is kept as
    HELLO, which has an L where the pattern asks for an R. *)
Lemma filterWords_keeps_pattern_mismatch :
  In (lit "HELLO") (filterWords ascii_toUpperCase zebra_search [candidate "hello"])
  /\ matches_pattern (pattern zebra_search) (lit "HELLO") = false.
Proof. split; [left; reflexivity | reflexivity]. Qed.

(** C2, amended. The result filter re-checks the exact length, the required
    letters and the excluded letters of the constraints: every word of its
    output is the uppercased word of a candidate and meets these three. The
    positional pattern is not among them: the output is the same whatever
    the pattern cell holds. *)
Theorem filterWords_rechecks up (c : State) (data : list WordItem) :
  (forall w, In w (filterWords up c data) ->
     Satisfies c w /\ exists item, In item data /\ w = up (word item))
  /\ (forall p, filterWords up (setPattern p c) data = filterWords up c data).
Proof.
  split.
  - intros w Hw. apply In_filterWords in Hw as [item [Hin [Heq Hs]]]. eauto.
  - intros p. reflexivity.
Qed.

Lemma filterWords_rechecks_witness :
  Satisfies zebra_search (lit "ZEBRA")
  /\ exists item,
       In item [candidate "zebra"; candidate "cobra"]
       /\ lit "ZEBRA" = ascii_toUpperCase (word item).
Proof.
  apply (proj1 (filterWords_rechecks ascii_toUpperCase zebra_search
                  [candidate "zebra"; candidate "cobra"])).
  left. reflexivity.
Defined.

(** ** The validator and the submission *)

(** C3. When the required letters, the pattern and the length are all
    empty, whatever the excluded letters are, [validateInputs] returns the
    empty-criteria message, and [handleSubmit] only stores that message: no
    parameters are built, no request is issued and no call of [fetchWords]
    is left waiting. *)
Theorem empty_criteria_short_circuits eng low (w : World) :
  letters (ui w) = [] -> pattern (ui w) = [] -> length (ui w) = [] ->
  validateInputs (ui w) = msg_empty_criteria
  /\ handleSubmit eng low w
     = mkWorld (setError msg_empty_criteria (ui w)) (sent w) (inflight w)
  /\ sent (handleSubmit eng low w) = sent w
  /\ inflight (handleSubmit eng low w) = inflight w.
Proof.
  intros Hl Hp Hn.
  assert (Hv : validateInputs (ui w) = msg_empty_criteria).
  { unfold validateInputs. now rewrite Hl, Hp, Hn. }
  unfold handleSubmit. rewrite Hv. simpl. auto.
Qed.

Lemma empty_criteria_short_circuits_witness :
  validateInputs excluded_only = msg_empty_criteria
  /\ handleSubmit v8 ascii_toLowerCase (mkWorld excluded_only [] [])
     = mkWorld (setError msg_empty_criteria excluded_only) [] []
  /\ sent (handleSubmit v8 ascii_toLowerCase (mkWorld excluded_only [] [])) = []
  /\ inflight (handleSubmit v8 ascii_toLowerCase (mkWorld excluded_only [] [])) = [].
Proof.
  apply (empty_criteria_short_circuits v8 ascii_toLowerCase
           (mkWorld excluded_only [] [])); reflexivity.
Defined.

(** C4. When the pattern and the length are both given and the pattern does
    not have that length, [validateInputs] returns the length-mismatch
    message; when the criteria are neither empty nor mismatched in this way,
    it returns the empty string, which [handleSubmit] takes as valid. *)
Theorem validateInputs_cases (st : State) :
  (pattern st <> [] -> length st <> [] ->
   Number (length st) <> Finite (N.of_nat (List.length (pattern st))) ->
   validateInputs st = msg_length_mismatch)
  /\ (~ (letters st = [] /\ pattern st = [] /\ length st = []) ->
      ~ (pattern st <> [] /\ length st <> []
         /\ Number (length st) <> Finite (N.of_nat (List.length (pattern st)))) ->
      validateInputs st = []).
Proof.
  unfold validateInputs. split.
  - intros Hp Hn Hne.
    apply truthy_true in Hp. apply truthy_true in Hn. rewrite Hp, Hn.
    rewrite andb_false_r. simpl.
    destruct (length_is _ _) eqn:E; [|reflexivity].
    apply length_is_Some in E. contradiction.
  - intros Hempty Hmis.
    destruct (negb (truthy (letters st)) && negb (truthy (pattern st))
              && negb (truthy (length st))) eqn:E1.
    + exfalso. apply Hempty.
      rewrite !andb_true_iff, !negb_true_iff, !truthy_false in E1. tauto.
    + destruct (truthy (pattern st) && truthy (length st)
                && negb (length_is (List.length (pattern st))
                           (Number (length st)))) eqn:E2; [|reflexivity].
      exfalso. apply Hmis.
      rewrite !andb_true_iff, negb_true_iff, !truthy_true in E2.
      destruct E2 as [[Hp Hn] Hl]. repeat split; try assumption.
      intros Heq. apply length_is_Some in Heq. congruence.
Qed.

Lemma validateInputs_cases_witness :
  validateInputs (setLength (lit "4") zebra_search) = msg_length_mismatch
  /\ validateInputs zebra_search = [].
Proof.
  split.
  - apply (proj1 (validateInputs_cases (setLength (lit "4") zebra_search)));
      vm_compute; congruence.
  - apply (proj2 (validateInputs_cases zebra_search)).
    + vm_compute. intros [_ [H _]]. discriminate H.
    + vm_compute. intros [_ [_ H]]. apply H. reflexivity.
Defined.

(** ** The query builder *)

(** A literal made of ASCII characters is ASCII only: by evaluation. *)
Ltac ascii_lit :=
  unfold ascii_only; vm_compute; repeat (constructor; [reflexivity|]); constructor.

Lemma ascii_toUpperCase_agrees : agrees_on_ascii ascii_toUpperCase ascii_toUpperCase.
Proof. intros s _. reflexivity. Qed.

Lemma ascii_toLowerCase_agrees : agrees_on_ascii ascii_toLowerCase ascii_toLowerCase.
Proof. intros s _. reflexivity. Qed.




(** C5. Length 5, pattern ??RA? and excluded letters CYT give the parameters
    sp=??ra?, q=-c -y -t, max=200, md=d, and the candidates zebra and cobra
    are filtered to ZEBRA alone. The same holds end to end: after the three
    inputs, the submission and a 200 answer with the two candidates, that
    one request has been sent and the results are ZEBRA alone, with no
    message. The case mappings are any that act on ASCII strings as
    JavaScript's do. *)
Theorem zebra_end_to_end eng up low :
  agrees_on_ascii up ascii_toUpperCase ->
  agrees_on_ascii low ascii_toLowerCase ->
  buildQueryParams eng low zebra_search
  = Normal [(lit "sp", lit "??ra?"); (lit "q", lit "-c -y -t");
            (lit "max", lit "200"); (lit "md", lit "d")]
  /\ filterWords up zebra_search [candidate "zebra"; candidate "cobra"]
     = [lit "ZEBRA"]
  /\ run eng up low [LengthInput (lit "5"); PatternInput (lit "??RA?");
                 ExcludedInput (lit "CYT"); Submit;
                 Settle 0 (ok_reply [candidate "zebra"; candidate "cobra"])]
     = mkWorld (setResults [lit "ZEBRA"] zebra_search)
               [[(lit "sp", lit "??ra?"); (lit "q", lit "-c -y -t");
                 (lit "max", lit "200"); (lit "md", lit "d")]]
               [].
Proof.
  intros Hup Hlow.
  assert (L1 : low (lit "??RA?") = lit "??ra?")
    by (rewrite Hlow; [reflexivity | ascii_lit]).
  assert (L2 : low (lit "CYT") = lit "cyt")
    by (rewrite Hlow; [reflexivity | ascii_lit]).
  assert (U1 : up (lit "zebra") = lit "ZEBRA")
    by (rewrite Hup; [reflexivity | ascii_lit]).
  assert (U2 : up (lit "cobra") = lit "COBRA")
    by (rewrite Hup; [reflexivity | ascii_lit]).
  assert (U3 : up (lit "??RA?") = lit "??RA?")
    by (rewrite Hup; [reflexivity | ascii_lit]).
  assert (U4 : up (lit "CYT") = lit "CYT")
    by (rewrite Hup; [reflexivity | ascii_lit]).
  pose proof L1 as L1c. pose proof L2 as L2c.
  pose proof U1 as U1c. pose proof U2 as U2c.
  vm_compute in L1c, L2c, U1c, U2c.
  split; [|split].
  - vm_compute. rewrite L1c, L2c. reflexivity.
  - vm_compute. repeat (progress (rewrite ?U1c, ?U2c; vm_compute)).
    reflexivity.
  - unfold run. cbn [fold_left dispatch]. rewrite U3, U4.
    vm_compute.
    repeat (progress (rewrite ?L1c, ?L2c, ?U1c, ?U2c; vm_compute)).
    reflexivity.
Qed.

Lemma zebra_end_to_end_witness :
  buildQueryParams v8 ascii_toLowerCase zebra_search
  = Normal [(lit "sp", lit "??ra?"); (lit "q", lit "-c -y -t");
            (lit "max", lit "200"); (lit "md", lit "d")]
  /\ filterWords ascii_toUpperCase zebra_search
       [candidate "zebra"; candidate "cobra"]
     = [lit "ZEBRA"]
  /\ run v8 ascii_toUpperCase ascii_toLowerCase
       [LengthInput (lit "5"); PatternInput (lit "??RA?");
        ExcludedInput (lit "CYT"); Submit;
        Settle 0 (ok_reply [candidate "zebra"; candidate "cobra"])]
     = mkWorld (setResults [lit "ZEBRA"] zebra_search)
               [[(lit "sp", lit "??ra?"); (lit "q", lit "-c -y -t");
                 (lit "max", lit "200"); (lit "md", lit "d")]]
               [].
Proof.
  apply (zebra_end_to_end v8 ascii_toUpperCase ascii_toLowerCase
           ascii_toUpperCase_agrees ascii_toLowerCase_agrees).
Defined.




(** The length 0 lies outside the positive lengths of C6 (the field's
    minimum is 1): the synthesized pattern is then empty and no [sp]
    parameter is appended. *)
Example no_pattern_for_length_zero :
  buildQueryParams v8 ascii_toLowerCase (mkState [] (lit "0") [] [] [] [] false)
  = Normal [(lit "max", lit "200"); (lit "md", lit "d")].
Proof. reflexivity. Qed.

(** ** Idempotence of the result filter *)

Lemma ascii_toUpperCase_idempotent (s : jsstring) :
  ascii_toUpperCase (ascii_toUpperCase s) = ascii_toUpperCase s.
Proof.
  unfold ascii_toUpperCase. rewrite map_map. apply map_ext. intros u.
  unfold upper_unit, is_lower.
  destruct ((97 <=? u)%N && (u <=? 122)%N) eqn:E; [|now rewrite E].
  apply andb_true_iff in E as [E1 E2].
  apply N.leb_le in E1. apply N.leb_le in E2.
  replace (97 <=? u - 32)%N with false; [reflexivity|].
  symmetry. apply N.leb_gt. lia.
Qed.

(** Items whose words are already uppercased and meet the three conditions
    all pass, unchanged. *)
Lemma filterWords_fixed up (c : State) (items : list WordItem) :
  (forall item, In item items ->
     up (word item) = word item /\ Satisfies c (word item)) ->
  filterWords up c items = map word items.
Proof.
  unfold filterWords. induction items as [|item items IH]; intros H.
  - reflexivity.
  - destruct (H item (or_introl eq_refl)) as [Hfix Hs].
    assert (Hk : keeps up c item = true)
      by (apply keeps_Satisfies; now rewrite Hfix).
    simpl. rewrite Hk. simpl. rewrite Hfix. f_equal.
    apply IH. intros item' Hin. apply H. now right.
Qed.

(** C7. The result filter is idempotent: feed its output back as the words of
    a list of candidates, under the same constraints, and it gives that
    output again. The uppercasing is any mapping that leaves its own results
    unchanged, as JavaScript's does. *)
Theorem filterWords_idempotent up (c : State) (data again : list WordItem) :
  (forall s, up (up s) = up s) ->
  map word again = filterWords up c data ->
  filterWords up c again = filterWords up c data.
Proof.
  intros Hidem Hagain. rewrite <- Hagain. apply filterWords_fixed.
  intros item Hin.
  assert (Hw : In (word item) (filterWords up c data))
    by (rewrite <- Hagain; now apply in_map).
  apply In_filterWords in Hw as [item' [_ [Heq Hs]]].
  split; [|exact Hs]. rewrite Heq. apply Hidem.
Qed.

Lemma filterWords_idempotent_witness :
  filterWords ascii_toUpperCase zebra_search [mkWordItem (lit "ZEBRA") None]
  = filterWords ascii_toUpperCase zebra_search
      [candidate "zebra"; candidate "cobra"].
Proof.
  apply (filterWords_idempotent ascii_toUpperCase zebra_search
           [candidate "zebra"; candidate "cobra"]
           [mkWordItem (lit "ZEBRA") None]
           ascii_toUpperCase_idempotent).
  reflexivity.
Defined.

(** ** The outcome of a request *)

Lemma within_ok (r : Response) :
  (200 <= status r <= 299)%N <-> ok r = true.
Proof.
  unfold ok. rewrite andb_true_iff, !N.leb_le. tauto.
Qed.

(** C8. A well-formed answer (a 2xx status and a body that is an array of
    word items) whose filtered list is empty, the empty array included, ends
    the [try] block normally: the results become the empty list and the
    message the no-matches notice, and the [catch] clause is not entered.
    A rejected request ends the [try] block by its exception instead and
    leaves the results as they were; and the no-matches notice is neither of
    the two failure messages of the source. *)
Theorem empty_result_is_success up (c st : State) (r : Response)
    (data : list WordItem) :
  (200 <= status r <= 299)%N ->
  json r = Normal data ->
  filterWords up c data = [] ->
  fetchWords_try up c (Normal r) st
    = (Normal tt, setError msg_no_matches (setResults [] st))
  /\ fetchWords_resume up c (Normal r) st
     = (Normal tt,
        setIsLoading false (setError msg_no_matches (setResults [] st)))
  /\ filterWords up c [] = []
  /\ (forall e st0,
        fst (fetchWords_try up c (Throw e) st0) = Throw e
        /\ results (snd (fetchWords_resume up c (Throw e) st0)) = results st0)
  /\ msg_no_matches <> msg_rate_limit
  /\ msg_no_matches <> msg_fetch_failed.
Proof.
  intros Hst Hjson Hempty.
  assert (H429 : (status r =? 429)%N = false) by (apply N.eqb_neq; lia).
  apply within_ok in Hst.
  assert (Htry : fetchWords_try up c (Normal r) st
                 = (Normal tt, setError msg_no_matches (setResults [] st))).
  { unfold fetchWords_try, bind, await, act.
    rewrite H429, Hst, Hjson, Hempty. reflexivity. }
  split; [exact Htry|].
  split; [unfold fetchWords_resume, try_catch_finally; rewrite Htry; reflexivity|].
  split; [reflexivity|].
  split; [intros e st0; split; reflexivity|].
  split; discriminate.
Qed.

Lemma empty_result_is_success_witness :
  fetchWords_resume ascii_toUpperCase zebra_search (ok_reply []) initial
  = (Normal tt,
     setIsLoading false (setError msg_no_matches (setResults [] initial))).
Proof.
  apply (empty_result_is_success ascii_toUpperCase zebra_search initial
           (mkResponse 200 (Normal [])) []).
  - simpl. lia.
  - reflexivity.
  - reflexivity.
Defined.

(** C9. Status 429 ends the [try] block with the error "API rate limit
    exceeded" and any other status outside 200-299 with the error "Failed to
    fetch words"; the [catch] clause stores that message and the results stay
    as they were. With a status in 200-299 the body is read as the array of
    candidates and the results become its filtered list. The two messages
    contain, case aside, the phrases "rate limit exceeded" and "failed to
    fetch". *)
Theorem status_handling up (c st : State) (r : Response) :
  (status r = 429%N ->
     fetchWords_try up c (Normal r) st = (Throw (ErrorObject msg_rate_limit), st)
     /\ snd (fetchWords_resume up c (Normal r) st)
        = setIsLoading false (setError msg_rate_limit st))
  /\ (status r <> 429%N -> ~ (200 <= status r <= 299)%N ->
        fetchWords_try up c (Normal r) st
          = (Throw (ErrorObject msg_fetch_failed), st)
        /\ snd (fetchWords_resume up c (Normal r) st)
           = setIsLoading false (setError msg_fetch_failed st))
  /\ (forall data, (200 <= status r <= 299)%N -> json r = Normal data ->
        fst (fetchWords_try up c (Normal r) st) = Normal tt
        /\ results (snd (fetchWords_resume up c (Normal r) st))
           = filterWords up c data)
  /\ includes (ascii_toLowerCase msg_rate_limit) (lit "rate limit exceeded") = true
  /\ includes (ascii_toLowerCase msg_fetch_failed) (lit "failed to fetch") = true.
Proof.
  split; [|split; [|split; [|split; reflexivity]]].
  - intros H429. apply N.eqb_eq in H429.
    unfold fetchWords_resume, try_catch_finally, fetchWords_try, bind, await.
    rewrite H429. split; reflexivity.
  - intros H429 Hko. apply N.eqb_neq in H429.
    assert (Hok : ok r = false).
    { destruct (ok r) eqn:E; [|reflexivity].
      apply within_ok in E. contradiction. }
    unfold fetchWords_resume, try_catch_finally, fetchWords_try, bind, await.
    rewrite H429, Hok. split; reflexivity.
  - intros data Hst Hjson.
    assert (H429 : (status r =? 429)%N = false) by (apply N.eqb_neq; lia).
    apply within_ok in Hst.
    unfold fetchWords_resume, try_catch_finally, fetchWords_try, bind, await, act.
    rewrite H429, Hst, Hjson. split; reflexivity.
Qed.

Lemma status_handling_witness :
  snd (fetchWords_resume ascii_toUpperCase zebra_search
         (Normal (mkResponse 429 (Normal []))) initial)
  = setIsLoading false (setError msg_rate_limit initial)
  /\ snd (fetchWords_resume ascii_toUpperCase zebra_search
            (Normal (mkResponse 500 (Normal []))) initial)
     = setIsLoading false (setError msg_fetch_failed initial)
  /\ results (snd (fetchWords_resume ascii_toUpperCase zebra_search
                     (ok_reply [candidate "zebra"; candidate "cobra"]) initial))
     = [lit "ZEBRA"].
Proof.
  split; [|split].
  - apply (proj1 (status_handling ascii_toUpperCase zebra_search initial
                    (mkResponse 429 (Normal [])))).
    reflexivity.
  - apply (proj1 (proj2 (status_handling ascii_toUpperCase zebra_search initial
                           (mkResponse 500 (Normal []))))).
    + discriminate.
    + simpl. lia.
  - apply (proj1 (proj2 (proj2
             (status_handling ascii_toUpperCase zebra_search initial
                (mkResponse 200 (Normal [candidate "zebra"; candidate "cobra"])))))
             [candidate "zebra"; candidate "cobra"]).
    + simpl. lia.
    + reflexivity.
Defined.

(** ** The sanitization invariant *)

Lemma is_upper_letter (u : code_unit) : is_upper u = true <-> upper_letter u.
Proof.
  unfold is_upper, upper_letter. rewrite andb_true_iff, !N.leb_le. tauto.
Qed.

Lemma is_decimal_digit (u : code_unit) : is_digit u = true <-> decimal_digit u.
Proof.
  unfold is_digit, decimal_digit. rewrite andb_true_iff, !N.leb_le. tauto.
Qed.

Lemma strip_non_upper_spec (s : jsstring) :
  Forall upper_letter (strip_non_upper s).
Proof.
  apply Forall_forall. intros u Hu. apply filter_In in Hu as [_ Hu].
  now apply is_upper_letter.
Qed.

Lemma strip_non_digit_spec (s : jsstring) :
  Forall decimal_digit (strip_non_digit s).
Proof.
  apply Forall_forall. intros u Hu. apply filter_In in Hu as [_ Hu].
  now apply is_decimal_digit.
Qed.

Lemma strip_non_pattern_spec (s : jsstring) :
  Forall (fun u => upper_letter u \/ u = wildcard) (strip_non_pattern s).
Proof.
  apply Forall_forall. intros u Hu. apply filter_In in Hu as [_ Hu].
  apply orb_true_iff in Hu as [Hu | Hu].
  - left. now apply is_upper_letter.
  - right. now apply N.eqb_eq.
Qed.

Lemma Sanitized_same (st st' : State) :
  same_constraints st st' -> Sanitized st -> Sanitized st'.
Proof.
  intros [Hl [He [Hp Hn]]] [S1 S2 S3 S4].
  constructor; [rewrite Hl | rewrite He | rewrite Hp | rewrite Hn]; assumption.
Qed.

(** The continuation of [fetchWords] writes the results, the message and
    the loading flag only. *)
Lemma fetchWords_resume_constraints up (c : State)
    (reply : Completion Response) (st : State) :
  same_constraints st (snd (fetchWords_resume up c reply st)).
Proof.
  unfold fetchWords_resume, try_catch_finally, fetchWords_try, bind, await, act.
  destruct reply as [r | e]; [|repeat split].
  destruct (status r =? 429)%N; [repeat split|].
  destruct (ok r); [|repeat split].
  destruct (json r) as [data | e]; repeat split.
Qed.

Lemma Forall_drop_nth {A} (P : A -> Prop) (i : nat) (l : list A) :
  Forall P l -> Forall P (drop_nth i l).
Proof.
  intros H. revert i. induction H as [|x l Hx Hl IH]; intros [|i]; simpl;
    auto.
Qed.

Lemma Invariant_boot : Invariant boot.
Proof. split; [constructor; constructor | constructor]. Qed.

Lemma Invariant_dispatch eng up low (w : World) (e : Event) :
  Invariant w -> Invariant (dispatch eng up low w e).
Proof.
  intros [Hui Hin]. pose proof Hui as [S1 S2 S3 S4].
  destruct e as [v | v | v | v | | i reply]; simpl.
  - split; [|exact Hin]. constructor; simpl; auto using strip_non_upper_spec.
  - split; [|exact Hin]. constructor; simpl; auto using strip_non_upper_spec.
  - split; [|exact Hin]. constructor; simpl; auto using strip_non_digit_spec.
  - split; [|exact Hin]. constructor; simpl; auto using strip_non_pattern_spec.
  - unfold handleSubmit. destruct (truthy (validateInputs (ui w))).
    + split; [|exact Hin]. constructor; assumption.
    + unfold fetchWords_begin.
      destruct (buildQueryParams eng low (ui w)) as [q | err]; split; simpl.
      * constructor; assumption.
      * apply Forall_app. split; [exact Hin | constructor; [exact Hui | constructor]].
      * constructor; assumption.
      * exact Hin.
  - destruct (nth_error (inflight w) i) as [c|] eqn:E; [|split; assumption].
    split; simpl.
    + apply (Sanitized_same (ui w)); [|exact Hui].
      apply fetchWords_resume_constraints.
    + now apply Forall_drop_nth.
Qed.

(** C10. Whatever the sequence of input events, submissions and settled
    requests, the required and the excluded letters hold only the letters
    A-Z, the pattern only A-Z and the wildcard, and the length only decimal
    digits. This holds of the current cells, which [handleSubmit] hands to
    [validateInputs] and [buildQueryParams], and of the cells of every
    closure in flight, which are those the result filter reads. *)
Theorem constraints_stay_sanitized eng up low (events : list Event) :
  Sanitized (ui (run eng up low events))
  /\ Forall Sanitized (inflight (run eng up low events)).
Proof.
  unfold run. change (Invariant (fold_left (dispatch eng up low) events boot)).
  generalize Invariant_boot. generalize boot.
  induction events as [|e events IH]; intros w Hw; simpl.
  - exact Hw.
  - apply IH, Invariant_dispatch, Hw.
Qed.

(** ** More on the query builder *)

Lemma copies_nil_iff (n : nat) : copies (lit "?") n = [] <-> n = O.
Proof. destruct n; simpl; split; congruence. Qed.

(** What [buildQueryParams] builds from the final pattern once line 25 has
    returned it. *)
Lemma buildQueryParams_returns eng low (st : State) (p : URLSearchParams) :
  buildQueryParams eng low st = Normal p ->
  exists finalPattern,
    (if negb (truthy (pattern st)) && truthy (length st)
     then JS.repeat eng (lit "?") (Number (length st))
     else Normal (pattern st)) = Normal finalPattern
    /\ p = (if truthy finalPattern
            then [(lit "sp", low finalPattern)] else [])
           ++ (if truthy (excludedLetters st)
               then [(lit "q",
                      join (lit " ")
                        (map (fun l => lit "-" ++ l)
                           (split_units (low (excludedLetters st)))))]
               else [])
           ++ [(lit "max", lit "200"); (lit "md", lit "d")].
Proof.
  unfold buildQueryParams.
  destruct (if negb (truthy (pattern st)) && truthy (length st)
            then JS.repeat eng (lit "?") (Number (length st))
            else Normal (pattern st)) as [fp | err]; [|discriminate].
  intros H. injection H as <-. exists fp. split; [reflexivity|].
  destruct (truthy fp); destruct (truthy (excludedLetters st)); reflexivity.
Qed.

(** X1. Whenever [buildQueryParams] returns, the parameters come in the
    order sp, q, max, md; sp and q may each be missing, max=200 and md=d
    never are, and nothing else is sent: the list is rebuilt from its own sp
    and q values. *)
Theorem buildQueryParams_shape eng low (st : State) (p : URLSearchParams) :
  buildQueryParams eng low st = Normal p ->
  p = match get (lit "sp") p with Some v => [(lit "sp", v)] | None => [] end
      ++ match get (lit "q") p with Some v => [(lit "q", v)] | None => [] end
      ++ [(lit "max", lit "200"); (lit "md", lit "d")]
  /\ get (lit "max") p = Some (lit "200")
  /\ get (lit "md") p = Some (lit "d").
Proof.
  intros H. apply buildQueryParams_returns in H as [fp [_ ->]].
  destruct (truthy fp); destruct (truthy (excludedLetters st));
    repeat split; reflexivity.
Qed.

Lemma buildQueryParams_shape_witness :
  get (lit "max")
      [(lit "sp", lit "??ra?"); (lit "q", lit "-c -y -t");
       (lit "max", lit "200"); (lit "md", lit "d")]
  = Some (lit "200").
Proof.
  apply (buildQueryParams_shape v8 ascii_toLowerCase zebra_search).
  reflexivity.
Defined.

(** X2. Whenever [buildQueryParams] returns: an explicit pattern is sent as
    it is, lowercased, whatever the length cell holds; and no sp parameter is
    sent exactly when there is no pattern and the length is empty or reads
    as zero (or as NaN, which no digit string does). *)
Theorem sp_parameter eng low (st : State) (p : URLSearchParams) :
  buildQueryParams eng low st = Normal p ->
  (pattern st <> [] -> get (lit "sp") p = Some (low (pattern st)))
  /\ (get (lit "sp") p = None
      <-> pattern st = []
          /\ (length st = [] \/ Number (length st) = Finite 0
              \/ Number (length st) = NaN)).
Proof.
  intros H. apply buildQueryParams_returns in H as [fp [Hfp ->]]. split.
  - intros Hp. apply truthy_true in Hp. rewrite Hp in Hfp. simpl in Hfp.
    injection Hfp as <-. rewrite Hp.
    destruct (truthy (excludedLetters st)); reflexivity.
  - destruct (pattern st) as [|a pt] eqn:Ep; simpl in Hfp.
    + destruct (length st) as [|d n] eqn:En; simpl in Hfp.
      * injection Hfp as <-. simpl.
        destruct (truthy (excludedLetters st)); simpl; split; auto.
      * rewrite <- En in *. unfold JS.repeat in Hfp.
        destruct (Number (length st)) as [v | |] eqn:Ev.
        -- destruct (N.of_nat (List.length (lit "?")) * v <=? string_limit eng)%N;
             [|discriminate Hfp].
           injection Hfp as <-.
           destruct (N.to_nat v) as [|k] eqn:Ek; simpl.
           ++ assert (v = 0%N) by lia. subst v.
              destruct (truthy (excludedLetters st)); simpl; split; auto.
           ++ destruct (truthy (excludedLetters st)); simpl; split;
                try discriminate;
                intros [_ [H | [H | H]]];
                try (rewrite En in H; discriminate H);
                try discriminate H;
                injection H as H; lia.
        -- discriminate Hfp.
        -- injection Hfp as <-. simpl.
           destruct (truthy (excludedLetters st)); simpl; split; auto.
    + injection Hfp as <-. simpl.
      destruct (truthy (excludedLetters st)); simpl; split;
        try discriminate; intros [H _]; discriminate H.
Qed.

Lemma sp_parameter_witness :
  get (lit "sp")
      [(lit "sp", lit "??ra?"); (lit "q", lit "-c -y -t");
       (lit "max", lit "200"); (lit "md", lit "d")]
  = Some (ascii_toLowerCase (pattern zebra_search)).
Proof.
  apply (proj1 (sp_parameter v8 ascii_toLowerCase zebra_search _ eq_refl)).
  discriminate.
Defined.

Lemma join_terms (s : jsstring) :
  s <> [] ->
  join (lit " ") (map (fun l => lit "-" ++ l) (split_units s)) ++ lit " "
  = flat_map (fun u => [45; u; 32]%N) s.
Proof.
  induction s as [|u s IH]; [congruence|]. intros _.
  destruct s as [|v s]; [reflexivity|].
  change (join (lit " ")
            (map (fun l => lit "-" ++ l) (split_units (u :: v :: s))))
    with ((lit "-" ++ [u]) ++ lit " "
          ++ join (lit " ") (map (fun l => lit "-" ++ l) (split_units (v :: s)))).
  rewrite <- !app_assoc, IH by discriminate. reflexivity.
Qed.

Lemma lower_upper_letters (s : jsstring) :
  Forall upper_letter s ->
  ascii_toLowerCase s = map (fun u => (u + 32)%N) s.
Proof.
  intros H. unfold ascii_toLowerCase. apply map_ext_in. intros u Hu.
  rewrite Forall_forall in H. apply H in Hu.
  unfold lower_unit. apply is_upper_letter in Hu. now rewrite Hu.
Qed.

Lemma ascii_only_upper (s : jsstring) : Forall upper_letter s -> ascii_only s.
Proof.
  unfold ascii_only. apply Forall_impl. unfold upper_letter. intros u Hu. lia.
Qed.

Lemma all_upper_letters (s : jsstring) :
  forallb is_upper s = true -> Forall upper_letter s.
Proof.
  intros H. apply Forall_forall. intros u Hu.
  rewrite forallb_forall in H. now apply is_upper_letter, H.
Qed.

(** X3. Whenever [buildQueryParams] returns: without excluded letters no q
    parameter is sent. With excluded letters, all capitals A-Z as the input
    handler leaves them, the q parameter has one term per letter, in order:
    a minus sign and the letter in lower case, with one space between terms
    (so that q followed by a space is the terms each followed by a
    space). *)
Theorem q_parameter eng low (st : State) (p : URLSearchParams) :
  buildQueryParams eng low st = Normal p ->
  agrees_on_ascii low ascii_toLowerCase ->
  Forall upper_letter (excludedLetters st) ->
  (excludedLetters st = [] -> get (lit "q") p = None)
  /\ (excludedLetters st <> [] ->
      exists v, get (lit "q") p = Some v
                /\ v ++ lit " "
                   = flat_map (fun u => [45; u + 32; 32]%N) (excludedLetters st)).
Proof.
  intros H Hlow Hup. apply buildQueryParams_returns in H as [fp [_ ->]]. split.
  - intros He. rewrite He. simpl. destruct (truthy fp); reflexivity.
  - intros He. pose proof He as Ht. apply truthy_true in Ht. rewrite Ht.
    rewrite (Hlow _ (ascii_only_upper _ Hup)), (lower_upper_letters _ Hup).
    eexists. split.
    + destruct (truthy fp); reflexivity.
    + rewrite join_terms.
      * rewrite flat_map_concat_map, map_map, <- flat_map_concat_map.
        reflexivity.
      * destruct (excludedLetters st); [congruence | discriminate].
Qed.

Lemma q_parameter_witness :
  exists v, get (lit "q")
              [(lit "sp", lit "??ra?"); (lit "q", lit "-c -y -t");
               (lit "max", lit "200"); (lit "md", lit "d")] = Some v
            /\ v ++ lit " "
               = flat_map (fun u => [45; u + 32; 32]%N) (lit "CYT").
Proof.
  apply (proj2 (q_parameter v8 ascii_toLowerCase zebra_search _ eq_refl
                  ascii_toLowerCase_agrees
                  (all_upper_letters (lit "CYT") eq_refl))).
  discriminate.
Defined.

(** ** More on the result filter *)

(** X4. When the required letters, the length and the excluded letters are
    all empty, as in a search by pattern alone, the filter drops nothing:
    every candidate of the service is shown, uppercased. *)
Theorem filterWords_pattern_only up (c : State) (data : list WordItem) :
  letters c = [] -> length c = [] -> excludedLetters c = [] ->
  filterWords up c data = map (fun item => up (word item)) data.
Proof.
  intros Hl Hn He. unfold filterWords. f_equal.
  induction data as [|item data IH]; [reflexivity|]. simpl.
  replace (keeps up c item) with true; [now rewrite IH|].
  symmetry. apply keeps_Satisfies. unfold Satisfies. auto.
Qed.

Lemma filterWords_pattern_only_witness :
  filterWords ascii_toUpperCase
    (mkState [] [] (lit "??RA?") [] [] [] false)
    [candidate "zebra"; candidate "hello"]
  = [lit "ZEBRA"; lit "HELLO"].
Proof.
  apply (filterWords_pattern_only ascii_toUpperCase
           (mkState [] [] (lit "??RA?") [] [] [] false)
           [candidate "zebra"; candidate "hello"]); reflexivity.
Defined.

(** X5. A letter that is both required and excluded empties the result,
    whatever the service returns. *)
Theorem filterWords_conflict up (c : State) (data : list WordItem)
    (l : code_unit) :
  In l (letters c) -> In l (excludedLetters c) ->
  filterWords up c data = [].
Proof.
  intros Hreq Hexc.
  destruct (filterWords up c data) as [|w ws] eqn:E; [reflexivity|].
  exfalso.
  assert (Hw : In w (filterWords up c data)) by (rewrite E; now left).
  apply In_filterWords in Hw as [item [_ [_ [_ [Hl He]]]]].
  destruct Hl as [Hl | Hl]; [rewrite Hl in Hreq; contradiction|].
  destruct He as [He | He]; [rewrite He in Hexc; contradiction|].
  exact (He l Hexc (Hl l Hreq)).
Qed.

Lemma filterWords_conflict_witness :
  filterWords ascii_toUpperCase
    (mkState (lit "AB") [] [] (lit "CA") [] [] false)
    [candidate "abc"; candidate "cab"]
  = [].
Proof.
  apply (filterWords_conflict ascii_toUpperCase
           (mkState (lit "AB") [] [] (lit "CA") [] [] false)
           [candidate "abc"; candidate "cab"] 65%N).
  - left. reflexivity.
  - right. left. reflexivity.
Defined.

Lemma filter_narrow {A} (f g : A -> bool) (l : list A) :
  (forall x, g x = true -> f x = true) ->
  filter g (filter f l) = filter g l.
Proof.
  intros H. induction l as [|x l IH]; [reflexivity|]. simpl.
  destruct (f x) eqn:Ef; simpl.
  - now rewrite IH.
  - destruct (g x) eqn:Eg; [|exact IH].
    apply H in Eg. congruence.
Qed.

(** X6. Narrowing a search narrows its results: with the same length cell,
    more required letters and more excluded letters, the result is what the
    narrower filter keeps of the candidates that the wider one kept, in the
    same order. *)
Theorem filterWords_narrowing up (c c' : State) (data : list WordItem) :
  length c' = length c ->
  incl (letters c) (letters c') ->
  incl (excludedLetters c) (excludedLetters c') ->
  filterWords up c' (filter (keeps up c) data) = filterWords up c' data.
Proof.
  intros Hn Hl He. unfold filterWords. f_equal. apply filter_narrow.
  intros item Hk. apply keeps_Satisfies. apply keeps_Satisfies in Hk.
  destruct Hk as [Kn [Kl Ke]]. rewrite Hn in Kn.
  split; [exact Kn|]. split.
  - destruct (letters c) as [|a ls] eqn:E; [now left|]. right.
    rewrite <- E in *. intros l Hin. apply Hl in Hin.
    destruct Kl as [Kl | Kl]; [rewrite Kl in Hin; contradiction|].
    now apply Kl.
  - destruct (excludedLetters c) as [|a ls] eqn:E; [now left|]. right.
    rewrite <- E in *. intros l Hin. apply He in Hin.
    destruct Ke as [Ke | Ke]; [rewrite Ke in Hin; contradiction|].
    now apply Ke.
Qed.

Lemma filterWords_narrowing_witness :
  filterWords ascii_toUpperCase (mkState (lit "AUL") [] [] (lit "G") [] [] false)
    (filter (keeps ascii_toUpperCase aul_search)
       [candidate "aural"; candidate "plant"; candidate "laugh"])
  = filterWords ascii_toUpperCase
      (mkState (lit "AUL") [] [] (lit "G") [] [] false)
      [candidate "aural"; candidate "plant"; candidate "laugh"].
Proof.
  apply (filterWords_narrowing ascii_toUpperCase aul_search
           (mkState (lit "AUL") [] [] (lit "G") [] [] false)
           [candidate "aural"; candidate "plant"; candidate "laugh"]).
  - reflexivity.
  - intros l Hl. exact Hl.
  - intros l Hl. destruct Hl.
Defined.

(** X7. Once [validateInputs] has accepted a pattern together with a length,
    every word of the result has the length of the pattern, although the
    filter never looks at the pattern. *)
Theorem results_have_pattern_length up (c : State) (data : list WordItem)
    (w : jsstring) :
  validateInputs c = [] ->
  pattern c <> [] -> length c <> [] ->
  In w (filterWords up c data) ->
  List.length w = List.length (pattern c).
Proof.
  intros Hv Hp Hn Hw.
  apply In_filterWords in Hw as [item [_ [_ [[Hlen | Hlen] _]]]];
    [contradiction|].
  unfold validateInputs in Hv.
  apply truthy_true in Hp. apply truthy_true in Hn.
  rewrite Hp, Hn, andb_false_r in Hv. simpl in Hv.
  destruct (length_is (List.length (pattern c)) (Number (length c))) eqn:E;
    [|discriminate Hv].
  apply length_is_Some in E. rewrite Hlen in E.
  injection E as E. now apply Nat2N.inj.
Qed.

Lemma results_have_pattern_length_witness :
  List.length (lit "ZEBRA") = List.length (pattern zebra_search).
Proof.
  apply (results_have_pattern_length ascii_toUpperCase zebra_search
           [candidate "zebra"; candidate "cobra"] (lit "ZEBRA")).
  - reflexivity.
  - discriminate.
  - discriminate.
  - left. reflexivity.
Defined.

(** X8. Each candidate is judged on its own: the result of a list of
    candidates in two parts is the result of the first part followed by that
    of the second, and a result never has more words than there were
    candidates. *)
Theorem filterWords_app up (c : State) (d1 d2 : list WordItem) :
  filterWords up c (d1 ++ d2) = filterWords up c d1 ++ filterWords up c d2
  /\ List.length (filterWords up c d1) <= List.length d1.
Proof.
  unfold filterWords. split.
  - now rewrite filter_app, map_app.
  - rewrite length_map. apply filter_length_le.
Qed.

(** ** How a call of fetchWords ends *)

(** X9. Whatever the request settles to, the call ends in one of six ways. A
    rejected request and a body that cannot be read store the message of the
    error thrown, or "Failed to fetch words" when what was thrown is not an
    Error; status 429 and the other statuses outside 200-299 store their two
    messages; these four leave the results as they were. A readable 2xx
    answer replaces the results by the filtered list and stores the empty
    message, or the no-matches notice when that list is empty. In every case
    the loading flag ends cleared and the four constraint cells are not
    touched. *)
Theorem fetchWords_resume_ending up (c st : State)
    (reply : Completion Response) :
  Ending up c st reply (snd (fetchWords_resume up c reply st))
  /\ isLoading (snd (fetchWords_resume up c reply st)) = false
  /\ same_constraints st (snd (fetchWords_resume up c reply st)).
Proof.
  split; [|split; [|apply fetchWords_resume_constraints]].
  - unfold fetchWords_resume, try_catch_finally, fetchWords_try, bind, await, act.
    destruct reply as [r | e]; [|apply Ending_rejected].
    destruct (status r =? 429)%N eqn:E429.
    { apply N.eqb_eq in E429. now apply Ending_rate_limited. }
    apply N.eqb_neq in E429.
    destruct (ok r) eqn:Eok; simpl.
    + apply within_ok in Eok.
      destruct (json r) as [data | e] eqn:Ej; simpl.
      * destruct (filterWords up c data) as [|w ws] eqn:Ef.
        -- now apply Ending_no_matches with (data := data).
        -- rewrite <- Ef. apply Ending_matches; try assumption.
           rewrite Ef. discriminate.
      * now apply Ending_bad_body.
    + apply Ending_bad_status; [assumption|].
      intros H. apply within_ok in H. congruence.
  - unfold fetchWords_resume, try_catch_finally, fetchWords_try, bind, await, act.
    destruct reply as [r | e]; [|reflexivity].
    destruct (status r =? 429)%N; [reflexivity|].
    destruct (ok r); [|reflexivity].
    destruct (json r); reflexivity.
Qed.

(** ** The events of the component *)

Lemma is_upper_upper_unit (u : code_unit) :
  is_upper (upper_unit u) = is_letter u.
Proof.
  unfold upper_unit, is_letter, is_upper, is_lower.
  destruct ((97 <=? u)%N && (u <=? 122)%N) eqn:E.
  - apply andb_true_iff in E as [E1 E2].
    apply N.leb_le in E1. apply N.leb_le in E2.
    rewrite orb_true_r. apply andb_true_iff.
    split; apply N.leb_le; lia.
  - now rewrite orb_false_r.
Qed.

Lemma wildcard_upper_unit (u : code_unit) :
  unit_eqb (upper_unit u) wildcard = unit_eqb u wildcard.
Proof.
  unfold upper_unit, is_lower, unit_eqb, wildcard.
  destruct ((97 <=? u)%N && (u <=? 122)%N) eqn:E; [|reflexivity].
  apply andb_true_iff in E as [E1 E2].
  apply N.leb_le in E1. apply N.leb_le in E2.
  destruct (N.eqb_spec (u - 32) 63); destruct (N.eqb_spec u 63);
    try reflexivity; lia.
Qed.

Lemma filter_map_swap {A B} (f : A -> B) (p : B -> bool) (l : list A) :
  filter p (map f l) = map f (filter (fun x => p (f x)) l).
Proof.
  induction l as [|x l IH]; [reflexivity|]. simpl.
  destruct (p (f x)); simpl; now rewrite IH.
Qed.

(** X11. On a value typed in ASCII, the letters handlers keep exactly the
    letters, of either case, in order and uppercased (no letter typed in
    lower case is lost), and the pattern handler keeps the letters and the
    question marks; the length handler keeps exactly the digits. The
    uppercasing is any mapping that acts on ASCII strings as JavaScript's
    does. *)
Theorem input_handlers_on_ascii eng up low (w : World) (value : jsstring) :
  agrees_on_ascii up ascii_toUpperCase ->
  ascii_only value ->
  letters (ui (dispatch eng up low w (LettersInput value)))
    = ascii_toUpperCase (filter is_letter value)
  /\ excludedLetters (ui (dispatch eng up low w (ExcludedInput value)))
     = ascii_toUpperCase (filter is_letter value)
  /\ pattern (ui (dispatch eng up low w (PatternInput value)))
     = ascii_toUpperCase
         (filter (fun u => is_letter u || unit_eqb u wildcard) value)
  /\ length (ui (dispatch eng up low w (LengthInput value)))
     = filter is_digit value.
Proof.
  intros Hup Hascii. simpl. rewrite (Hup value Hascii).
  unfold strip_non_upper, strip_non_pattern, strip_non_digit, ascii_toUpperCase.
  rewrite !filter_map_swap. repeat split; f_equal; apply filter_ext; intros u.
  - apply is_upper_upper_unit.
  - apply is_upper_upper_unit.
  - now rewrite is_upper_upper_unit, wildcard_upper_unit.
Qed.

Lemma input_handlers_on_ascii_witness :
  letters (ui (dispatch v8 ascii_toUpperCase ascii_toLowerCase boot
                 (LettersInput (lit "a-U l9"))))
  = lit "AUL".
Proof.
  apply (input_handlers_on_ascii v8 ascii_toUpperCase ascii_toLowerCase boot
           (lit "a-U l9") ascii_toUpperCase_agrees).
  ascii_lit.
Defined.

Lemma fetchWords_resume_clears_loading up (c st : State)
    (reply : Completion Response) :
  isLoading (snd (fetchWords_resume up c reply st)) = false.
Proof.
  unfold fetchWords_resume, try_catch_finally, fetchWords_try, bind, await, act.
  destruct reply as [r | e]; [|reflexivity].
  destruct (status r =? 429)%N; [reflexivity|].
  destruct (ok r); [|reflexivity].
  destruct (json r); reflexivity.
Qed.

Lemma SingleFlight_deliver eng up low (w : World) (e : Event) :
  SingleFlight w -> SingleFlight (deliver eng up low w e).
Proof.
  unfold SingleFlight. intros H.
  destruct e as [v | v | v | v | | i reply];
    cbn [deliver dispatch on_ui ui inflight]; try exact H.
  - destruct (isLoading (ui w)) eqn:El; [rewrite El; exact H|].
    destruct H as [[H _] | [_ Hin]]; [congruence|].
    unfold handleSubmit. destruct (truthy (validateInputs (ui w))).
    + right. simpl. auto.
    + unfold fetchWords_begin.
      destruct (buildQueryParams eng low (ui w)) as [q | err].
      * left. simpl. rewrite Hin. simpl. eauto.
      * right. simpl. auto.
  - destruct H as [[Hl [c Hin]] | [Hl Hin]]; rewrite Hin.
    + destruct i as [|i]; cbn [nth_error].
      * right. cbn [ui inflight drop_nth].
        split; [apply fetchWords_resume_clears_loading | reflexivity].
      * replace (nth_error (@nil State) i) with (@None State)
          by (destruct i; reflexivity).
        left. rewrite Hin. eauto.
    + replace (nth_error (@nil State) i) with (@None State)
        by (destruct i; reflexivity).
      right. auto.
Qed.

(** X12. On the page, where a submission is delivered only while the submit
    button is enabled, at most one request is in flight at any time, and the
    loading flag is set exactly while one is. *)
Theorem one_request_in_flight eng up low (events : list Event) :
  List.length (inflight (run_page eng up low events)) <= 1
  /\ (isLoading (ui (run_page eng up low events)) = true
      <-> inflight (run_page eng up low events) <> []).
Proof.
  assert (H : SingleFlight (run_page eng up low events)).
  { unfold run_page.
    assert (H0 : SingleFlight boot) by (right; split; reflexivity).
    revert H0. generalize boot.
    induction events as [|e events IH]; intros w Hw; simpl; [exact Hw|].
    apply IH, SingleFlight_deliver, Hw. }
  destruct H as [[Hl [c Hin]] | [Hl Hin]]; rewrite Hl, Hin; simpl.
  - split; [lia|]. split; [discriminate | reflexivity].
  - split; [lia|]. split; [discriminate | congruence].
Qed.

Lemma Pending_dispatch eng up low (w : World) (e : Event) :
  Sanitized (ui w) -> Pending eng low w ->
  Pending eng low (dispatch eng up low w e).
Proof.
  unfold Pending. intros Hs Hp.
  destruct e as [v | v | v | v | | i reply];
    cbn [dispatch on_ui ui sent inflight]; try exact Hp.
  - unfold handleSubmit.
    destruct (truthy (validateInputs (ui w))) eqn:Ev; [exact Hp|].
    apply truthy_false in Ev. unfold fetchWords_begin.
    destruct (buildQueryParams eng low (ui w)) as [q | err] eqn:Eq;
      cbn [ui sent inflight]; [|exact Hp].
    apply Forall_app. split.
    + eapply Forall_impl; [|exact Hp]. intros c [Hc [q' [Hq Hin]]].
      split; [exact Hc|]. exists q'. split; [exact Hq|].
      apply in_or_app. now left.
    + constructor; [|constructor]. split; [split; assumption|].
      exists q. split; [exact Eq|]. apply in_or_app. right. now left.
  - destruct (nth_error (inflight w) i); [|exact Hp].
    cbn [sent inflight]. now apply Forall_drop_nth.
Qed.

Lemma Pending_fold eng up low (events : list Event) (w : World) :
  Invariant w -> Pending eng low w ->
  Pending eng low (fold_left (dispatch eng up low) events w).
Proof.
  revert w. induction events as [|e events IH]; intros w Hi Hp; simpl.
  - exact Hp.
  - apply IH; [apply Invariant_dispatch, Hi|].
    apply Pending_dispatch; [apply Hi | exact Hp].
Qed.

(** X13. No call of [fetchWords] runs on criteria that the validator
    rejects: after any sequence of events, the closure of each call in flight
    holds sanitized cells on which [validateInputs] returned the empty
    string, [buildQueryParams] returned on them, and the parameters it built
    are among the requests sent. *)
Theorem pending_calls_are_validated eng up low (events : list Event) :
  Forall (fun c => Validated c
                   /\ exists q, buildQueryParams eng low c = Normal q
                                /\ In q (sent (run eng up low events)))
         (inflight (run eng up low events)).
Proof.
  apply (Pending_fold eng up low events boot Invariant_boot). constructor.
Qed.

Lemma inputs_keep_requests eng up low (inputs : list Event) (w : World) :
  forallb is_input inputs = true ->
  sent (fold_left (dispatch eng up low) inputs w) = sent w
  /\ inflight (fold_left (dispatch eng up low) inputs w) = inflight w.
Proof.
  revert w. induction inputs as [|e inputs IH]; intros w H; simpl.
  - auto.
  - simpl in H. apply andb_true_iff in H as [He H].
    destruct (IH (dispatch eng up low w e) H) as [-> ->].
    destruct e; try discriminate He; auto.
Qed.

Lemma fetchWords_resume_results up (c st : State) (r : Response)
    (data : list WordItem) :
  (200 <= status r <= 299)%N -> json r = Normal data ->
  results (snd (fetchWords_resume up c (Normal r) st)) = filterWords up c data.
Proof.
  intros Hst Hjson.
  assert (H429 : (status r =? 429)%N = false) by (apply N.eqb_neq; lia).
  apply within_ok in Hst.
  unfold fetchWords_resume, try_catch_finally, fetchWords_try, bind, await, act.
  rewrite H429, Hst, Hjson. reflexivity.
Qed.

(** X14. A search is filtered by the constraints it was submitted with: when
    a submission passes the validator and [buildQueryParams] returns, the
    cells are then edited by any input events, and the request comes back
    with a readable 2xx answer, the results are the candidates filtered by
    the cells as they were at the submission, not as they are now; and the
    one request sent carries the parameters built from those cells. *)
Theorem results_follow_submission eng up low (w : World)
    (inputs : list Event) (st : N) (data : list WordItem)
    (q : URLSearchParams) :
  validateInputs (ui w) = [] ->
  buildQueryParams eng low (ui w) = Normal q ->
  forallb is_input inputs = true ->
  (200 <= st <= 299)%N ->
  let w1 := handleSubmit eng low w in
  let w2 := fold_left (dispatch eng up low) inputs w1 in
  let w3 := dispatch eng up low w2
              (Settle (List.length (inflight w))
                      (Normal (mkResponse st (Normal data)))) in
  results (ui w3) = filterWords up (ui w) data
  /\ sent w3 = sent w ++ [q]
  /\ inflight w3 = inflight w.
Proof.
  intros Hv Hq Hinputs Hst w1 w2 w3.
  assert (E1 : w1 = mkWorld (setIsLoading true (setError [] (ui w)))
                      (sent w ++ [q]) (inflight w ++ [ui w])).
  { unfold w1, handleSubmit, fetchWords_begin. rewrite Hv. simpl.
    now rewrite Hq. }
  destruct (inputs_keep_requests eng up low inputs w1 Hinputs) as [Hs Hi].
  fold w2 in Hs, Hi. rewrite E1 in Hs, Hi. simpl in Hs, Hi.
  assert (Hnth : nth_error (inflight w2) (List.length (inflight w))
                 = Some (ui w)).
  { rewrite Hi, nth_error_app2, PeanoNat.Nat.sub_diag by lia. reflexivity. }
  unfold w3. cbn [dispatch]. rewrite Hnth. cbn [ui sent inflight].
  split; [|split].
  - now apply fetchWords_resume_results.
  - exact Hs.
  - rewrite Hi. clear. induction (inflight w) as [|x l IH]; simpl;
      [reflexivity | now rewrite IH].
Qed.

Lemma results_follow_submission_witness :
  results (ui (dispatch v8 ascii_toUpperCase ascii_toLowerCase
                 (fold_left (dispatch v8 ascii_toUpperCase ascii_toLowerCase)
                    [ExcludedInput (lit "Z")]
                    (handleSubmit v8 ascii_toLowerCase (mkWorld zebra_search [] [])))
                 (Settle 0 (ok_reply [candidate "zebra"; candidate "cobra"]))))
  = [lit "ZEBRA"].
Proof.
  apply (results_follow_submission v8 ascii_toUpperCase ascii_toLowerCase
           (mkWorld zebra_search [] []) [ExcludedInput (lit "Z")] 200
           [candidate "zebra"; candidate "cobra"]
           [(lit "sp", lit "??ra?"); (lit "q", lit "-c -y -t");
            (lit "max", lit "200"); (lit "md", lit "d")]).
  - reflexivity.
  - reflexivity.
  - reflexivity.
  - lia.
Defined.

(** X15. A search by required letters alone is accepted by the validator and
    sends no constraint to the service: the request carries max=200 and md=d
    only, and the letters are applied by the filter to whatever comes back. *)
Theorem letters_only_request eng low (w : World) :
  letters (ui w) <> [] ->
  pattern (ui w) = [] -> length (ui w) = [] -> excludedLetters (ui w) = [] ->
  validateInputs (ui w) = []
  /\ sent (handleSubmit eng low w)
     = sent w ++ [[(lit "max", lit "200"); (lit "md", lit "d")]].
Proof.
  intros Hl Hp Hn He. apply truthy_true in Hl.
  assert (Hv : validateInputs (ui w) = []).
  { unfold validateInputs. now rewrite Hl, Hp, Hn. }
  split; [exact Hv|].
  unfold handleSubmit, fetchWords_begin. rewrite Hv.
  unfold buildQueryParams. rewrite Hp, Hn, He. reflexivity.
Qed.

Lemma letters_only_request_witness :
  validateInputs aul_search = []
  /\ sent (handleSubmit v8 ascii_toLowerCase (mkWorld aul_search [] []))
     = [[(lit "max", lit "200"); (lit "md", lit "d")]].
Proof.
  apply (letters_only_request v8 ascii_toLowerCase (mkWorld aul_search [] []));
    [discriminate | reflexivity | reflexivity | reflexivity].
Defined.

(** X16. The results change only when a call in flight gets a readable 2xx
    answer, and then they become the candidates of that answer filtered by
    the constraints of that call. Every other event leaves them as they
    were: an input event, a submission (accepted, rejected by the validator,
    or failing in [buildQueryParams]), a request that is rejected or answered
    with a bad status or an unreadable body, and a settlement that matches no
    call in flight. *)
Theorem results_change_only_on_answers eng up low (w : World) (e : Event) :
  results (ui (dispatch eng up low w e)) = results (ui w)
  \/ exists i r data c,
       e = Settle i (Normal r)
       /\ nth_error (inflight w) i = Some c
       /\ (200 <= status r <= 299)%N
       /\ json r = Normal data
       /\ results (ui (dispatch eng up low w e)) = filterWords up c data.
Proof.
  destruct e as [v | v | v | v | | i reply]; cbn [dispatch on_ui ui];
    try (left; reflexivity).
  - left. unfold handleSubmit.
    destruct (truthy (validateInputs (ui w))); [reflexivity|].
    unfold fetchWords_begin.
    destruct (buildQueryParams eng low (ui w)); reflexivity.
  - destruct (nth_error (inflight w) i) as [c|] eqn:E; [|now left].
    cbn [ui].
    unfold fetchWords_resume, try_catch_finally, fetchWords_try, bind, await, act.
    destruct reply as [r | err]; [|now left].
    destruct (status r =? 429)%N eqn:E429; [now left|].
    destruct (ok r) eqn:Eok; [|now left].
    destruct (json r) as [data | err] eqn:Ej; [|now left].
    right. exists i, r, data, c.
    apply within_ok in Eok. repeat split; try assumption; try apply Eok.
Qed.

(** ** A length that the engine cannot serve *)

(** X17. A submission by a length alone whose count the engine refuses (the
    cell reads as +Infinity, or as a number past the greatest string)
    passes the validator, but [buildQueryParams] throws the RangeError of
    [repeat] at line 25. The call of [fetchWords] ends at once: the message
    of that error is stored, the loading flag is cleared, the results are
    kept, no request is sent and no call is left in flight. *)
Theorem oversized_length_submission eng low (w : World) :
  pattern (ui w) = [] ->
  length (ui w) <> [] ->
  (Number (length (ui w)) = Infinity
   \/ exists n, Number (length (ui w)) = Finite n /\ (string_limit eng < n)%N) ->
  validateInputs (ui w) = []
  /\ buildQueryParams eng low (ui w)
     = Throw (ErrorObject (repeat_error eng (Number (length (ui w)))))
  /\ error (ui (handleSubmit eng low w))
     = repeat_error eng (Number (length (ui w)))
  /\ isLoading (ui (handleSubmit eng low w)) = false
  /\ results (ui (handleSubmit eng low w)) = results (ui w)
  /\ sent (handleSubmit eng low w) = sent w
  /\ inflight (handleSubmit eng low w) = inflight w.
Proof.
  intros Hp Hn Hbig. apply truthy_true in Hn.
  assert (Hv : validateInputs (ui w) = []).
  { unfold validateInputs. rewrite Hp, Hn. simpl.
    now rewrite andb_false_r. }
  assert (Hb : buildQueryParams eng low (ui w)
               = Throw (ErrorObject (repeat_error eng (Number (length (ui w)))))).
  { unfold buildQueryParams. rewrite Hp, Hn. cbn [truthy negb andb].
    unfold JS.repeat. destruct Hbig as [-> | [n [-> Hlt]]]; [reflexivity|].
    change (N.of_nat (List.length (lit "?"))) with 1%N. rewrite N.mul_1_l.
    apply N.leb_gt in Hlt. now rewrite Hlt. }
  split; [exact Hv|]. split; [exact Hb|].
  unfold handleSubmit, fetchWords_begin. rewrite Hv. cbn [truthy ui sent inflight].
  rewrite Hb. repeat split.
Qed.

Lemma oversized_length_submission_witness :
  error (ui (handleSubmit v8 ascii_toLowerCase (mkWorld oversized_search [] [])))
  = lit "Invalid string length"
  /\ sent (handleSubmit v8 ascii_toLowerCase (mkWorld oversized_search [] [])) = [].
Proof.
  destruct (oversized_length_submission v8 ascii_toLowerCase
              (mkWorld oversized_search [] []))
    as [_ [_ [He [_ [_ [Hs _]]]]]].
  - reflexivity.
  - discriminate.
  - right. exists 600000000%N. split; [reflexivity | reflexivity].
  - split; [exact He | exact Hs].
Defined.

(** X18. [buildQueryParams] throws in that case only: it returns unless
    there is no pattern, the length cell is not empty, and the cell reads as
    +Infinity or as a number past the greatest string of the engine. *)
Theorem buildQueryParams_throws_iff eng low (st : State) :
  (exists err, buildQueryParams eng low st = Throw err)
  <-> pattern st = [] /\ length st <> []
      /\ (Number (length st) = Infinity
          \/ exists n, Number (length st) = Finite n
                       /\ (string_limit eng < n)%N).
Proof.
  unfold buildQueryParams. split.
  - intros [err H].
    destruct (pattern st) as [|a p]; [|discriminate H].
    destruct (length st) as [|d l] eqn:El; [discriminate H|].
    rewrite <- El in *. cbn [truthy negb andb] in H.
    replace (truthy (length st)) with true in H by (now rewrite El).
    split; [reflexivity|]. split; [rewrite El; discriminate|].
    unfold JS.repeat in H.
    destruct (Number (length st)) as [v | |]; [|now left|discriminate H].
    right. exists v. split; [reflexivity|].
    change (N.of_nat (List.length (lit "?"))) with 1%N in H.
    rewrite N.mul_1_l in H.
    destruct (v <=? string_limit eng)%N eqn:E; [discriminate H|].
    now apply N.leb_gt.
  - intros [Hp [Hn Hbig]]. apply truthy_true in Hn. rewrite Hp, Hn.
    cbn [truthy negb andb]. unfold JS.repeat.
    destruct Hbig as [-> | [n [-> Hlt]]]; [eauto|].
    change (N.of_nat (List.length (lit "?"))) with 1%N. rewrite N.mul_1_l.
    apply N.leb_gt in Hlt. rewrite Hlt. eauto.
Qed.
